(** * MSExcelTool backend: record store and chat proxy

    A shallow embedding of [backend/models.py] and [backend/main.py].

    - JSON payloads are a nested inductive; a Python [dict] decoded from
      JSON is a [gmap string json] (dict equality ignores key order).
    - Python [str] values are kept as their UTF-8 bytes (concatenation and
      equality commute with the encoding).
    - The relational table is the list of its rows in insertion order.
    - The remote generation service, the clock, the rendering of a
      library validation error and the key the store draws at random
      once its largest key is in use are inputs of the model. *)

From Stdlib Require Import ZArith Sorting.Sorted Sorting.Permutation.
From stdpp Require Import base option list gmap strings.

#[local] Set Warnings "-register-all".
#[local] Open Scope Z_scope.

(** ** JSON values, as produced by decoding a request body *)

Inductive json : Type :=
  | JNull
  | JBool (b : bool)
  | JInt (n : Z)
  | JFloat (bits : Z)          (* binary64 bit pattern of a Python float *)
  | JStr (s : string)
  | JArr (l : list json)
  | JObj (m : gmap string json).

Definition as_str (v : json) : option string :=
  match v with JStr s => Some s | _ => None end.

Definition as_list (v : json) : option (list json) :=
  match v with JArr l => Some l | _ => None end.

Definition as_dict (v : json) : option (gmap string json) :=
  match v with JObj m => Some m | _ => None end.

(** [v == s] for a decoded JSON value [v] and a [str] constant [s]. *)
Definition eq_str (v : json) (s : string) : bool :=
  match v with JStr s' => bool_decide (s' = s) | _ => false end.

(** The line feed of the f-string escapes. *)
Definition LF : string := String (Ascii.ascii_of_nat 10) EmptyString.

(** ** Exceptions that can surface inside the chat handler's [try] block *)

Inductive Exception : Type :=
  | KeyError (key : string)          (* [m[key]] on a dict without [key] *)
  | ValidationError (input : json)   (* [types.Part(text=input)], input neither str nor None *)
  | UpstreamError (msg : string).    (* anything raised by [generate_content] / [response.text] *)

#[global] Instance Exception_ret : MRet (sum Exception) := λ A x, inr x.
#[global] Instance Exception_bind : MBind (sum Exception) :=
  λ A B f m, match m with inl e => inl e | inr x => f x end.

(** [m[key]] *)
Definition getitem (m : gmap string json) (key : string) : Exception + json :=
  match m !! key with
  | Some v => inr v
  | None => inl (KeyError key)
  end.

(** ** models.py *)

Module models.

Record FileRecord : Type := {
  id : Z;                               (* Integer, primary key *)
  filename : string;
  headers : list string;                (* JSON column *)
  rows : list (gmap string json);       (* JSON column *)
  timestamp : Z;                        (* DateTime, microseconds since the epoch *)
  description : option string           (* Text, nullable *)
}.

(** [Base.metadata.create_all]: missing tables are created empty, an
    existing table is kept with its rows. *)
Definition init_db (existing : option (list FileRecord)) : list FileRecord :=
  default [] existing.

(** The largest key of a 64-bit integer primary key. *)
Definition MAX_ROWID : Z := 9223372036854775807.

(** The integer primary key the store gives to the next inserted row
    (the row-id rule of the default SQLite engine, without
    AUTOINCREMENT): 1 on an empty table; one more than the largest key in
    use while that key is below [MAX_ROWID]; once [MAX_ROWID] is in use,
    the key [random_rowid] that the engine draws at random for the keys
    in use, retrying until the draw is unused (a key space so full that
    no draw succeeds is outside the model). *)
Definition next_id (random_rowid : list Z → Z) (table : list FileRecord) : Z :=
  match id <$> table with
  | [] => 1
  | k :: ks =>
      if foldr Z.max k ks <? MAX_ROWID then 1 + foldr Z.max k ks
      else random_rowid (id <$> table)
  end.

(** [ORDER BY timestamp DESC]: insertion of a row into a result that is
    already in descending order; among equal timestamps the earlier row
    of the table comes first. *)
Fixpoint insert_desc (r : FileRecord) (sorted : list FileRecord) : list FileRecord :=
  match sorted with
  | [] => [r]
  | x :: rest =>
      if timestamp x <=? timestamp r then r :: x :: rest
      else x :: insert_desc r rest
  end.

Definition order_by_timestamp_desc (table : list FileRecord) : list FileRecord :=
  foldr insert_desc [] table.

End models.

(** ** google.genai.types, as far as the handler uses it *)

Module types.

Record Part : Type := { text : option string }.

Record Content : Type := { role : string; parts : list Part }.

(** [types.Part(text=v)]: the field is an optional string; any other
    value is refused by the model's validation. *)
Definition Part_of (v : json) : Exception + Part :=
  match v with
  | JStr s => inr {| text := Some s |}
  | JNull => inr {| text := None |}
  | _ => inl (ValidationError v)
  end.

(** One [client.models.generate_content] invocation. *)
Record GenerateContent : Type := {
  model : string;
  contents : list Content;
  system_instruction : string
}.

End types.

(** ** main.py *)

Module main.

(** The client object built once at import time. *)
Record Client : Type := { api_key : string }.

(** [client = None; if GEMINI_API_KEY: client = genai.Client(...)]:
    an unset variable and the empty string are both falsy. *)
Definition init_client (GEMINI_API_KEY : option string) : option Client :=
  match GEMINI_API_KEY with
  | None => None
  | Some k => if bool_decide (k = "") then None else Some {| api_key := k |}
  end.

(** Pydantic schemas *)
Record FileRecordCreate : Type := {
  filename : string;
  headers : list string;
  rows : list (gmap string json);
  description : option string
}.

Record ChatRequest : Type := {
  message : string;
  history : list (gmap string json);
  data_context : string;
  model : string
}.

(** What a handler hands back to the framework. *)
Inductive Response : Type :=
  | RootOk (status message : string)
  | Saved (id : Z)                              (* {"id": id, "status": "saved"} *)
  | Records (records : list models.FileRecord)
  | ChatText (text : option string)             (* {"text": response.text} *)
  | HTTPException (status_code : Z) (detail : string)
  | RequestValidationError                      (* body refused by the schema *)
  | FrameworkResponse.                          (* no handler of this file was called *)

(** The status code of a handler's answer; the framework's own answers
    (not found, method not allowed, documentation pages) are not told
    apart here. *)
Definition status_of (r : Response) : option Z :=
  match r with
  | HTTPException code _ => Some code
  | RequestValidationError => Some 422
  | FrameworkResponse => None
  | _ => Some 200
  end.

(** Body validation against the declared field types (JSON input: a
    [str] field takes a string only, [List[str]] an array of strings,
    [List[dict]] an array of objects, [Optional[str]] null or a string;
    unknown keys are ignored). *)
Definition field_str (m : gmap string json) (key : string) : option string :=
  match m !! key with
  | Some (JStr s) => Some s
  | _ => None
  end.

Definition field_list {A} (item : json → option A) (m : gmap string json)
    (key : string) : option (list A) :=
  match m !! key with
  | Some (JArr l) => mapM item l
  | _ => None
  end.

(** [Optional[str] = None]: the key may be missing or hold null. *)
Definition field_optional_str (m : gmap string json) (key : string)
    : option (option string) :=
  match m !! key with
  | None | Some JNull => Some None
  | Some (JStr s) => Some (Some s)
  | Some _ => None
  end.

(** [str = default]: the key may be missing, null is refused. *)
Definition field_str_default (m : gmap string json) (key dflt : string)
    : option string :=
  match m !! key with
  | None => Some dflt
  | Some (JStr s) => Some s
  | Some _ => None
  end.

Definition validate_FileRecordCreate (body : json) : option FileRecordCreate :=
  match body with
  | JObj m =>
      match field_str m "filename", field_list as_str m "headers",
            field_list as_dict m "rows", field_optional_str m "description" with
      | Some f, Some h, Some r, Some d =>
          Some {| filename := f; headers := h; rows := r; description := d |}
      | _, _, _, _ => None
      end
  | _ => None
  end.

Definition validate_ChatRequest (body : json) : option ChatRequest :=
  match body with
  | JObj m =>
      match field_str m "message", field_list as_dict m "history",
            field_str m "data_context",
            field_str_default m "model" "gemini-2.0-flash" with
      | Some msg, Some h, Some dc, Some mdl =>
          Some {| message := msg; history := h; data_context := dc; model := mdl |}
      | _, _, _, _ => None
      end
  | _ => None
  end.

Definition read_root : Response :=
  RootOk "ok" "Backend Proxy (New SDK) is active".

(** [create_record]: the row gets the store's next key and the clock
    reading [utcnow] of the insert; the other columns are the request's. *)
Definition create_record (random_rowid : list Z → Z) (utcnow : Z)
    (record : FileRecordCreate) (db : list models.FileRecord)
    : list models.FileRecord * Response :=
  let db_record :=
    {| models.id := models.next_id random_rowid db;
       models.filename := filename record;
       models.headers := headers record;
       models.rows := rows record;
       models.timestamp := utcnow;
       models.description := description record |} in
  (db ++ [db_record], Saved (models.id db_record)).

Definition get_records (db : list models.FileRecord) : Response :=
  Records (models.order_by_timestamp_desc db).

(** What the process has done to the outside: the calls sent to the
    generation service and the lines printed. *)
Record World : Type := {
  calls : list types.GenerateContent;
  stdout : list string
}.

Definition print (line : string) (w : World) : World :=
  {| calls := calls w; stdout := stdout w ++ [line] |}.

Definition SYSTEM_INSTRUCTION : string :=
  "你是一個專業的資料分析助理。請根據使用者提供的資料上下文，以繁體中文回答問題並提供有用的洞察。".

Section chat.

(** [str(e)] of a validation error is the library's rendering. *)
Variable validation_message : json → string.

(** The remote service: what the [n]-th call of the process, made
    through [client], returns or raises. *)
Variable generate_content :
  Client → nat → types.GenerateContent → Exception + option string.

(** The store's random source: the key drawn for the keys in use. *)
Variable random_rowid : list Z → Z.

Definition str (e : Exception) : string :=
  match e with
  | KeyError key => "'" +:+ key +:+ "'"
  | ValidationError input => validation_message input
  | UpstreamError msg => msg
  end.

(** Body of the [for m in req.history] loop. *)
Definition history_step (m : gmap string json) : Exception + types.Content :=
  r ← getitem m "role";
  let role := if eq_str r "user" then "user" else "model" in
  t ← getitem m "text";
  p ← types.Part_of t;
  mret {| types.role := role; types.parts := [p] |}.

(** The loop, appending to [contents]. *)
Fixpoint history_loop (contents : list types.Content)
    (hist : list (gmap string json)) : Exception + list types.Content :=
  match hist with
  | [] => inr contents
  | m :: rest => c ← history_step m; history_loop (contents ++ [c]) rest
  end.

Definition prompt (req : ChatRequest) : string :=
  "資料上下文：" +:+ LF +:+ data_context req +:+ LF +:+ LF
    +:+ "使用者問題：" +:+ message req.

(** Everything before the remote call. *)
Definition build_contents (req : ChatRequest) : Exception + list types.Content :=
  contents ← history_loop [] (history req);
  mret (contents ++
    [ {| types.role := "user";
         types.parts := [ {| types.text := Some (prompt req) |} ] |} ]).

(** The [try] block: the call is logged whether it returns or raises. *)
Definition try_block (c : Client) (req : ChatRequest) (w : World)
    : World * (Exception + option string) :=
  match build_contents req with
  | inl e => (w, inl e)
  | inr contents =>
      let call :=
        {| types.model := model req;
           types.contents := contents;
           types.system_instruction := SYSTEM_INSTRUCTION |} in
      ({| calls := calls w ++ [call]; stdout := stdout w |},
       generate_content c (length (calls w)) call)
  end.

Definition chat_with_gemini (client : option Client) (req : ChatRequest)
    (w : World) : World * Response :=
  match client with
  | None => (w, HTTPException 500 "Server Gemini API Key not configured")
  | Some c =>
      match try_block c req w with
      | (w', inr text) => (w', ChatText text)
      | (w', inl e) =>
          (print ("Gemini Error: " +:+ str e) w', HTTPException 500 (str e))
      end
  end.

(** *** The HTTP surface *)

Inductive Request : Type :=
  | GET_root
  | POST_records (body : json)
  | GET_records
  | POST_chat (body : json)
  | Unrouted (method path : string).   (* anything the four routes do not match *)

Record App : Type := {
  client : option Client;
  db : list models.FileRecord;
  world : World
}.

Definition startup (GEMINI_API_KEY : option string)
    (existing : option (list models.FileRecord)) (w : World) : App :=
  {| client := init_client GEMINI_API_KEY;
     db := models.init_db existing;
     world := w |}.

Definition handle (utcnow : Z) (app : App) (rq : Request) : App * Response :=
  match rq with
  | GET_root => (app, read_root)
  | POST_records body =>
      match validate_FileRecordCreate body with
      | None => (app, RequestValidationError)
      | Some record =>
          let '(db', resp) :=
            create_record random_rowid utcnow record (db app) in
          ({| client := client app; db := db'; world := world app |}, resp)
      end
  | GET_records => (app, get_records (db app))
  | POST_chat body =>
      match validate_ChatRequest body with
      | None => (app, RequestValidationError)
      | Some req =>
          let '(w', resp) := chat_with_gemini (client app) req (world app) in
          ({| client := client app; db := db app; world := w' |}, resp)
      end
  | Unrouted _ _ => (app, FrameworkResponse)
  end.

(** A run of requests, each with the clock reading at its arrival. *)
Fixpoint serve (app : App) (rqs : list (Z * Request)) : App * list Response :=
  match rqs with
  | [] => (app, [])
  | (utcnow, rq) :: rest =>
      let '(app', resp) := handle utcnow app rq in
      let '(app'', resps) := serve app' rest in
      (app'', resp :: resps)
  end.

End chat.

(** A run of create operations on the store alone, with the response
    of each. *)
Fixpoint create_all (random_rowid : list Z → Z)
    (db : list models.FileRecord) (inputs : list (Z * FileRecordCreate))
    : list models.FileRecord * list Response :=
  match inputs with
  | [] => (db, [])
  | (utcnow, record) :: rest =>
      let '(db', resp) := create_record random_rowid utcnow record db in
      let '(db'', resps) := create_all random_rowid db' rest in
      (db'', resp :: resps)
  end.

End main.

(** * Vocabulary of the specification *)

Import models.

(** Newest first: no later row of the list is newer than an earlier one. *)
Definition newest_first (a b : FileRecord) : Prop := timestamp b ≤ timestamp a.

(** The conversational unit the specification assigns to a history turn:
    role "user" when the turn's role is "user", "model" for any other
    role value, and the turn's text as the only part. *)
Inductive unit_of (m : gmap string json) : types.Content → Prop :=
  | unit_of_user s :
      m !! "role" = Some (JStr "user") →
      m !! "text" = Some (JStr s) →
      unit_of m {| types.role := "user";
                   types.parts := [ {| types.text := Some s |} ] |}
  | unit_of_model r s :
      m !! "role" = Some r →
      r ≠ JStr "user" →
      m !! "text" = Some (JStr s) →
      unit_of m {| types.role := "model";
                   types.parts := [ {| types.text := Some s |} ] |}.

(** The synthesized last unit: label, data context, blank line, label,
    message. *)
Definition final_unit (data_context message : string) : types.Content :=
  {| types.role := "user";
     types.parts :=
       [ {| types.text :=
              Some ("資料上下文：" +:+ LF +:+ data_context +:+ LF +:+ LF
                      +:+ "使用者問題：" +:+ message) |} ] |}.

(** A history turn without a [role] or without a [text] key. *)
Definition lacks_key (m : gmap string json) : Prop :=
  m !! "role" = None ∨ m !! "text" = None.

(** The top-level shape the create schema declares. *)
Definition filename_is_str (body : json) : Prop :=
  ∃ m f, body = JObj m ∧ m !! "filename" = Some (JStr f).

Definition headers_is_list_of_str (body : json) : Prop :=
  ∃ m hs, body = JObj m ∧ m !! "headers" = Some (JArr (JStr <$> hs)).

Definition rows_is_list_of_objects (body : json) : Prop :=
  ∃ m rs, body = JObj m ∧ m !! "rows" = Some (JArr (JObj <$> rs)).

(** Answers and requests, by kind. *)
Definition is_Saved (r : main.Response) : bool :=
  match r with main.Saved _ => true | _ => false end.

Definition is_ChatText (r : main.Response) : bool :=
  match r with main.ChatText _ => true | _ => false end.

Definition is_POST_records (rq : main.Request) : bool :=
  match rq with main.POST_records _ => true | _ => false end.

Definition is_POST_chat (rq : main.Request) : bool :=
  match rq with main.POST_chat _ => true | _ => false end.

(** The keys the create schema reads. *)
Definition create_keys : list string :=
  ["filename"; "headers"; "rows"; "description"].

(** What stands between the data context and the message in the prompt. *)
Definition QUESTION_MARK : string := LF +:+ LF +:+ "使用者問題：".

(** A conversational unit as the handler builds them: one of the two
    roles, one part. *)
Definition normalized (u : types.Content) : Prop :=
  (types.role u = "user" ∨ types.role u = "model")
  ∧ length (types.parts u) = 1%nat.

(** A call as the handler sends them: the fixed system instruction, and
    normalized units followed by one synthesized final unit. *)
Definition well_formed_call (c : types.GenerateContent) : Prop :=
  types.system_instruction c = main.SYSTEM_INSTRUCTION
  ∧ ∃ units data_context message,
      types.contents c = units ++ [final_unit data_context message]
      ∧ Forall normalized units.

(** The engine's random draw is a key that is not in use. *)
Definition draws_unused (random_rowid : list Z → Z) : Prop :=
  ∀ ids, random_rowid ids ∉ ids.

(** The keys of the table leave room below [MAX_ROWID] for [n] more
    rows. *)
Definition room_for (table : list FileRecord) (n : nat) : Prop :=
  Z.of_nat n ≤ MAX_ROWID
  ∧ Forall (λ r, id r + Z.of_nat n ≤ MAX_ROWID) table.

(** * Sample inputs, used to run the model *)

Module sample.

Import main.

Definition turn (role text : json) : gmap string json :=
  <["role" := role]> (<["text" := text]> ∅).

Definition hist : list (gmap string json) :=
  [ turn (JStr "user") (JStr "hi"); turn (JStr "assistant") (JStr "hello") ].

Definition units : list types.Content :=
  [ {| types.role := "user"; types.parts := [ {| types.text := Some "hi" |} ] |};
    {| types.role := "model"; types.parts := [ {| types.text := Some "hello" |} ] |} ].

Definition req : ChatRequest :=
  {| message := "What was the peak month?";
     history := hist;
     data_context := "Q1 sales";
     model := "gemini-2.0-flash" |}.

(** A request whose second turn has no [role]. *)
Definition bad_req : ChatRequest :=
  {| message := "hi";
     history := [ turn (JStr "user") (JStr "a"); {["text" := JStr "b"]} ];
     data_context := "";
     model := "gemini-2.0-flash" |}.

Definition cli : Client := {| api_key := "secret" |}.

Definition w0 : World := {| calls := []; stdout := [] |}.

Definition call : types.GenerateContent :=
  {| types.model := "gemini-2.0-flash";
     types.contents := units ++ [final_unit "Q1 sales" "What was the peak month?"];
     types.system_instruction := SYSTEM_INSTRUCTION |}.

Definition message_of : json → string := λ _, "1 validation error for Part".

Definition answers : Client → nat → types.GenerateContent → Exception + option string :=
  λ _ _ _, inr (Some "March").

Definition fails : Client → nat → types.GenerateContent → Exception + option string :=
  λ _ _ _, inl (UpstreamError "429 quota exceeded").

(** The body of the specification's create scenario. *)
Definition row : gmap string json := <["x" := JInt 1]> (<["y" := JInt 2]> ∅).

Definition body : json :=
  JObj (<["filename" := JStr "a.csv"]>
          (<["headers" := JArr [JStr "x"; JStr "y"]]>
             (<["rows" := JArr [JObj row]]>
                (<["description" := JNull]> ∅)))).

(** The same body with a number as filename. *)
Definition bad_body : json :=
  JObj (<["filename" := JInt 7]>
          (<["headers" := JArr [JStr "x"; JStr "y"]]>
             (<["rows" := JArr [JObj row]]> ∅))).

Definition record : FileRecordCreate :=
  {| filename := "a.csv"; headers := ["x"; "y"]; rows := [row];
     description := None |}.

(** A random source whose draw is never in use. *)
Definition pick : list Z → Z := λ ids, 1 + foldr Z.max 0 ids.

(** A random source that draws 5. *)
Definition five : list Z → Z := λ _, 5.

(** A table whose only row holds the largest key. *)
Definition full_table : list models.FileRecord :=
  [ {| models.id := models.MAX_ROWID; models.filename := "z.csv";
       models.headers := []; models.rows := []; models.timestamp := 0;
       models.description := None |} ].

Definition app0 : App :=
  startup (Some "secret") None w0.

(** A chat body with an empty history and no model name. *)
Definition chat_body : json :=
  JObj (<["message" := JStr "hi"]>
          (<["history" := JArr []]>
             (<["data_context" := JStr ""]> ∅))).

(** A run with a create, a chat and a listing. *)
Definition run : list (Z * Request) :=
  [ (1000, POST_records body); (2000, POST_chat chat_body);
    (3000, GET_records) ].

(** A run without a create. *)
Definition quiet_run : list (Z * Request) :=
  [ (2000, POST_chat chat_body); (3000, GET_records); (4000, GET_root) ].

End sample.

(** * Properties of the record store *)

Lemma insert_desc_Permutation r l : insert_desc r l ≡ₚ r :: l.
Proof.
  induction l as [|x l IH]; simpl; [done|].
  destruct (timestamp x <=? timestamp r); [done|].
  rewrite IH. apply Permutation_swap.
Qed.

Lemma insert_desc_sorted r l :
  StronglySorted newest_first l → StronglySorted newest_first (insert_desc r l).
Proof.
  induction 1 as [|x l Hl IH Hx]; simpl.
  - repeat constructor.
  - destruct (Z.leb_spec (timestamp x) (timestamp r)) as [Hle|Hlt].
    + constructor; [by constructor|].
      constructor; [done|].
      eapply Forall_impl; [exact Hx|].
      unfold newest_first. intros y Hy. lia.
    + constructor; [done|].
      rewrite insert_desc_Permutation.
      constructor; [unfold newest_first; lia | done].
Qed.

Lemma order_by_timestamp_desc_Permutation table :
  order_by_timestamp_desc table ≡ₚ table.
Proof.
  induction table as [|r table IH]; simpl; [done|].
  by rewrite insert_desc_Permutation, IH.
Qed.

Lemma order_by_timestamp_desc_sorted table :
  StronglySorted newest_first (order_by_timestamp_desc table).
Proof.
  induction table as [|r table IH]; simpl; [constructor|].
  by apply insert_desc_sorted.
Qed.

Lemma foldr_max_ge k ks x : x ∈ k :: ks → x ≤ foldr Z.max k ks.
Proof.
  induction ks as [|y ks IH]; simpl.
  - intros ->%list_elem_of_singleton. lia.
  - rewrite !elem_of_cons. intros [->|[->|Hx]].
    + assert (k ≤ foldr Z.max k ks) by (apply IH; left). lia.
    + lia.
    + assert (x ≤ foldr Z.max k ks) by (apply IH; by right). lia.
Qed.

Lemma foldr_max_elem k ks : foldr Z.max k ks ∈ k :: ks.
Proof.
  induction ks as [|y ks IH]; simpl; [by left|].
  destruct (Z.max_spec y (foldr Z.max k ks)) as [[_ ->]|[_ ->]].
  - apply elem_of_cons in IH as [->|IH]; [by left|by right; right].
  - right; by left.
Qed.

(** Below the largest key the next key is above every key in use, and
    leaves the room it was given minus one. *)
Lemma next_id_room random_rowid table n :
  room_for table (S n) →
  (∀ r, r ∈ table → id r < next_id random_rowid table)
  ∧ next_id random_rowid table + Z.of_nat n ≤ MAX_ROWID.
Proof.
  intros [Hn Hroom]. unfold next_id.
  destruct (id <$> table) as [|k ks] eqn:Hids.
  - split; [|lia]. intros r Hr.
    apply (list_elem_of_fmap_2 id) in Hr. rewrite Hids in Hr.
    by apply elem_of_nil in Hr.
  - pose proof (foldr_max_elem k ks) as Hmax.
    rewrite <-Hids in Hmax.
    apply list_elem_of_fmap in Hmax as (r0 & Hr0 & Hin).
    rewrite Forall_forall in Hroom. specialize (Hroom _ Hin).
    destruct (Z.ltb_spec (foldr Z.max k ks) MAX_ROWID); [|lia].
    split; [|lia]. intros r Hr.
    apply (list_elem_of_fmap_2 id) in Hr. rewrite Hids in Hr.
    apply foldr_max_ge in Hr. lia.
Qed.

(** A key drawn among the unused ones, or one above the largest key, is
    not in use. *)
Lemma next_id_unused random_rowid table :
  draws_unused random_rowid →
  next_id random_rowid table ∉ id <$> table.
Proof.
  intros Hdraw. unfold next_id.
  destruct (id <$> table) as [|k ks] eqn:Hids; [apply not_elem_of_nil|].
  destruct (Z.ltb_spec (foldr Z.max k ks) MAX_ROWID); [|apply Hdraw].
  intros Hin%foldr_max_ge. lia.
Qed.

Import main.

Lemma create_record_db random_rowid utcnow record table :
  ∃ r, (create_record random_rowid utcnow record table).1 = table ++ [r]
       ∧ (create_record random_rowid utcnow record table).2 = Saved (id r)
       ∧ id r = next_id random_rowid table
       ∧ models.filename r = filename record
       ∧ models.headers r = headers record
       ∧ models.rows r = rows record
       ∧ models.description r = description record
       ∧ timestamp r = utcnow.
Proof. eexists. repeat split. Qed.

Lemma create_all_appends random_rowid inputs : ∀ table,
  ∃ new, (create_all random_rowid table inputs).1 = table ++ new
         ∧ (create_all random_rowid table inputs).2 = Saved ∘ id <$> new
         ∧ length new = length inputs
         ∧ (room_for table (length inputs) →
            Forall (λ r', Forall (λ r, id r < id r') table) new
            ∧ StronglySorted (λ a b, id a < id b) new).
Proof.
  induction inputs as [|[utcnow record] inputs IH]; intros table; simpl.
  - exists []. rewrite app_nil_r. repeat split; constructor.
  - set (r := {| id := next_id random_rowid table;
                 models.filename := filename record;
                 models.headers := headers record;
                 models.rows := rows record;
                 timestamp := utcnow;
                 models.description := description record |}).
    destruct (IH (table ++ [r])) as (new & Hdb & Hresp & Hlen & Hmono).
    destruct (create_all random_rowid (table ++ [r]) inputs)
      as [table' resps]. simpl in Hdb, Hresp. subst table' resps.
    exists (r :: new). simpl. rewrite <-app_assoc.
    split; [done|]. split; [done|]. split; [by rewrite Hlen|].
    intros Hroom.
    destruct (next_id_room random_rowid table _ Hroom) as [Hfresh Hnext].
    destruct Hroom as [Hn Hroom].
    destruct Hmono as [Hgt Hsort].
    { split; [lia|]. apply Forall_app. split.
      - eapply Forall_impl; [exact Hroom|]. simpl. intros; lia.
      - by apply Forall_singleton. }
    split.
    + constructor.
      * apply Forall_forall. intros r0 Hr0. by apply Hfresh.
      * eapply Forall_impl; [exact Hgt|]. simpl. intros r' Hr'.
        rewrite Forall_app in Hr'. by destruct Hr' as [Hr' _].
    + constructor; [done|].
      eapply Forall_impl; [exact Hgt|]. simpl. intros r' Hr'.
      rewrite Forall_app, Forall_singleton in Hr'. by destruct Hr' as [_ Hr'].
Qed.

(** C5. After any run of create operations, on any initial table, the
    list operation returns every stored record, arranged so that
    timestamps never increase along the result; on a table without
    records it returns the empty sequence. *)
Theorem C5_list_newest_first :
  (∀ random_rowid table inputs,
     ∃ l, get_records (create_all random_rowid table inputs).1 = Records l
          ∧ l ≡ₚ (create_all random_rowid table inputs).1
          ∧ StronglySorted newest_first l)
  ∧ get_records (init_db None) = Records [].
Proof.
  split; [|reflexivity].
  intros random_rowid table inputs.
  exists (order_by_timestamp_desc (create_all random_rowid table inputs).1).
  split; [reflexivity|].
  split; [apply order_by_timestamp_desc_Permutation
         |apply order_by_timestamp_desc_sorted].
Qed.

(** C6. Creating a record from any filename, headers, rows and optional
    description, on any table and at any clock reading, and then listing,
    yields an entry with exactly these four fields (an absent description
    stays null); it is the entry whose id the create call answered. *)
Theorem C6_create_then_list (random_rowid : list Z → Z) (utcnow : Z)
    (record : FileRecordCreate) (table : list FileRecord) :
  ∃ r l,
    get_records (create_record random_rowid utcnow record table).1 = Records l
    ∧ r ∈ l
    ∧ (create_record random_rowid utcnow record table).2 = Saved (id r)
    ∧ models.filename r = filename record
    ∧ models.headers r = headers record
    ∧ models.rows r = rows record
    ∧ models.description r = description record.
Proof.
  destruct (create_record_db random_rowid utcnow record table)
    as (r & Hdb & Hresp & _ & Hf & Hh & Hr & Hd & _).
  exists r, (order_by_timestamp_desc (create_record random_rowid utcnow record table).1).
  split; [reflexivity|].
  split; [|done].
  rewrite order_by_timestamp_desc_Permutation, Hdb.
  apply elem_of_app. right. by apply list_elem_of_singleton.
Qed.

(** C8 (as amended). For any run of create operations on any initial
    table: the rows already stored stay where they are with their ids,
    the new rows are appended in creation order and each create call
    answers the id of its row; and when the keys in use leave room below
    the largest 64-bit key for the rows of the run, every new id is
    larger than every id stored before the run, and a row created earlier
    has a strictly smaller id than one created later. *)
Theorem C8_ids_stable_and_increasing (random_rowid : list Z → Z)
    (table : list FileRecord) (inputs : list (Z * FileRecordCreate)) :
  ∃ new,
    (create_all random_rowid table inputs).1 = table ++ new
    ∧ (create_all random_rowid table inputs).2 = Saved ∘ id <$> new
    ∧ length new = length inputs
    ∧ (room_for table (length inputs) →
       Forall (λ r', Forall (λ r, id r < id r') table) new
       ∧ StronglySorted (λ a b, id a < id b) new).
Proof. apply create_all_appends. Qed.

(** * Properties of the chat proxy *)

Lemma history_step_unit m u : unit_of m u → history_step m = inr u.
Proof.
  unfold history_step, getitem.
  destruct 1 as [s Hr Ht|r s Hr Hne Ht]; rewrite Hr, Ht; simpl; [done|].
  destruct r as [| | | |s'| |]; simpl; try done.
  case_bool_decide; [congruence|done].
Qed.

Lemma history_step_lacks_key m :
  lacks_key m →
  history_step m = inl (KeyError "role") ∨ history_step m = inl (KeyError "text").
Proof.
  unfold history_step, getitem. intros [Hr|Ht].
  - left. by rewrite Hr.
  - destruct (m !! "role"); [right; by rewrite Ht | by left].
Qed.

(** The loop only ever extends the sequence it was started with. *)
Lemma history_loop_units hist : ∀ acc units,
  Forall2 unit_of hist units → history_loop acc hist = inr (acc ++ units).
Proof.
  induction hist as [|m hist IH]; intros acc units Hu.
  - apply Forall2_nil_inv_l in Hu as ->. simpl. by rewrite app_nil_r.
  - apply Forall2_cons_inv_l in Hu as (u & units' & Hm & Hrest & ->).
    simpl. rewrite (history_step_unit _ _ Hm). simpl.
    rewrite (IH _ _ Hrest). by rewrite <-app_assoc.
Qed.

Lemma history_loop_lacks_key hist : ∀ acc,
  Exists lacks_key hist → ∃ e, history_loop acc hist = inl e.
Proof.
  induction hist as [|m hist IH]; intros acc Hex.
  - by apply Exists_nil in Hex.
  - simpl. apply Exists_cons in Hex as [Hm|Hrest].
    + destruct (history_step_lacks_key _ Hm) as [-> | ->]; simpl; eauto.
    + destruct (history_step m) as [e|c]; simpl; eauto.
Qed.

(** The first turn that fails, failing on a missing key, decides the
    exception of the whole loop. *)
Lemma history_loop_first_failure good m rest units acc :
  Forall2 unit_of good units → lacks_key m →
  history_loop acc (good ++ m :: rest) = inl (KeyError "role")
  ∨ history_loop acc (good ++ m :: rest) = inl (KeyError "text").
Proof.
  revert acc units. induction good as [|g good IH]; intros acc units Hu Hm.
  - simpl. destruct (history_step_lacks_key _ Hm) as [-> | ->]; simpl; eauto.
  - apply Forall2_cons_inv_l in Hu as (u & units' & Hg & Hrest & ->).
    simpl. rewrite (history_step_unit _ _ Hg). simpl. by eapply IH.
Qed.

Lemma build_contents_inv req cs :
  build_contents req = inr cs →
  ∃ units, history_loop [] (history req) = inr units
           ∧ cs = units ++ [final_unit (data_context req) (message req)].
Proof.
  unfold build_contents. destruct (history_loop [] (history req)) as [e|units];
    simpl; [done|].
  intros [= <-]. by exists units.
Qed.

Lemma print_calls line w : calls (print line w) = calls w.
Proof. reflexivity. Qed.

Section chat_properties.

Variable validation_message : json → string.
Variable generate_content :
  Client → nat → types.GenerateContent → Exception + option string.
Variable random_rowid : list Z → Z.

Abbreviation chat := (chat_with_gemini validation_message generate_content).
Abbreviation str := (main.str validation_message).

(** What the handler does once the client exists, by the outcome of the
    steps before the call. *)
Lemma chat_with_client c req w :
  match build_contents req with
  | inl e =>
      chat (Some c) req w
      = (print ("Gemini Error: " +:+ str e) w, HTTPException 500 (str e))
  | inr cs =>
      ∃ w' resp, chat (Some c) req w = (w', resp)
        ∧ calls w' = calls w ++
            [ {| types.model := model req;
                 types.contents := cs;
                 types.system_instruction := SYSTEM_INSTRUCTION |} ]
  end.
Proof.
  unfold chat_with_gemini, try_block.
  destruct (build_contents req) as [e|cs]; [done|].
  destruct (generate_content _ _ _) as [e|t]; eauto.
Qed.

(** C1. Whenever the handler sends a call to the generation service,
    the last unit of the call's content sequence has role "user" and a
    single part whose text is: the data-context label, a line feed, the
    request's data_context, two line feeds, the question label, the
    request's message. *)
Theorem C1_final_unit (c : Client) (req : ChatRequest) (w : World)
    (call : types.GenerateContent) :
  calls (chat (Some c) req w).1 = calls w ++ [call] →
  last (types.contents call)
  = Some {| types.role := "user";
            types.parts :=
              [ {| types.text :=
                     Some ("資料上下文：" +:+ LF +:+ data_context req
                             +:+ LF +:+ LF
                             +:+ "使用者問題：" +:+ message req) |} ] |}.
Proof.
  pose proof (chat_with_client c req w) as H.
  destruct (build_contents req) as [e|cs] eqn:Hb.
  - rewrite H. simpl. intros Heq.
    apply (f_equal length) in Heq. rewrite length_app in Heq. simpl in Heq. lia.
  - destruct H as (w' & resp & -> & Hc). simpl. rewrite Hc.
    intros [_ <-]%app_inj_tail. simpl.
    apply build_contents_inv in Hb as (units & _ & ->).
    by rewrite last_snoc.
Qed.

(** C2. When every history turn carries a role and a text string, the
    handler sends exactly one call, whose content sequence is the units
    of the history turns in their original order ("user" for role
    "user", "model" for any other role, the turn's text as the single
    part), followed by exactly one final user unit. *)
Theorem C2_history_units (c : Client) (req : ChatRequest) (w : World)
    (units : list types.Content) :
  Forall2 unit_of (history req) units →
  build_contents req
  = inr (units ++ [final_unit (data_context req) (message req)])
  ∧ calls (chat (Some c) req w).1
    = calls w ++
        [ {| types.model := model req;
             types.contents :=
               units ++ [final_unit (data_context req) (message req)];
             types.system_instruction := SYSTEM_INSTRUCTION |} ].
Proof.
  intros Hu.
  assert (build_contents req
          = inr (units ++ [final_unit (data_context req) (message req)])) as Hb.
  { unfold build_contents. by rewrite (history_loop_units _ [] _ Hu). }
  split; [done|].
  pose proof (chat_with_client c req w) as H. rewrite Hb in H.
  destruct H as (w' & resp & -> & Hc). simpl. by rewrite Hc.
Qed.

(** C3 (as amended). With the credential unset (or set to the empty
    string) at start-up there is no client, and then the chat handler
    answers every request of the declared body type with status 500 and
    the fixed detail, leaving the call log and the output untouched; on
    the route, a body that satisfies the schema gets this answer and a
    body that does not is refused by body validation, in both cases with
    the application state unchanged; the two record endpoints answer, and
    change the table, exactly as they do with a credential. *)
Theorem C3_no_credential :
  init_client None = None
  ∧ init_client (Some "") = None
  ∧ (∀ req w,
       chat None req w
       = (w, HTTPException 500 "Server Gemini API Key not configured"))
  ∧ (∀ existing w utcnow body,
       handle validation_message generate_content random_rowid utcnow
         (startup None existing w) (POST_chat body)
       = (startup None existing w,
          match validate_ChatRequest body with
          | Some _ => HTTPException 500 "Server Gemini API Key not configured"
          | None => RequestValidationError
          end))
  ∧ (∀ key existing w utcnow,
       let with_key :=
         handle validation_message generate_content random_rowid utcnow
           (startup key existing w) GET_records in
       let without :=
         handle validation_message generate_content random_rowid utcnow
           (startup None existing w) GET_records in
       without.2 = with_key.2 ∧ db without.1 = db with_key.1)
  ∧ (∀ key existing w utcnow body,
       let with_key :=
         handle validation_message generate_content random_rowid utcnow
           (startup key existing w) (POST_records body) in
       let without :=
         handle validation_message generate_content random_rowid utcnow
           (startup None existing w) (POST_records body) in
       without.2 = with_key.2 ∧ db without.1 = db with_key.1).
Proof.
  split; [done|]. split; [done|]. split; [done|].
  split.
  { intros existing w utcnow body. simpl.
    by destruct (validate_ChatRequest body). }
  split; [done|].
  intros key existing w utcnow body. simpl.
  by destruct (validate_FileRecordCreate body).
Qed.

(** C4. When the steps before the call succeed and the generation
    service raises [e] on the call, the handler answers status 500 with
    detail [str(e)]; the service has been called exactly once and the
    error has been printed once. *)
Theorem C4_upstream_failure (c : Client) (req : ChatRequest) (w : World)
    (cs : list types.Content) (e : Exception) :
  build_contents req = inr cs →
  generate_content c (length (calls w))
    {| types.model := model req;
       types.contents := cs;
       types.system_instruction := SYSTEM_INSTRUCTION |} = inl e →
  chat (Some c) req w
  = ({| calls := calls w ++
                   [ {| types.model := model req;
                        types.contents := cs;
                        types.system_instruction := SYSTEM_INSTRUCTION |} ];
        stdout := stdout w ++ ["Gemini Error: " +:+ str e] |},
     HTTPException 500 (str e)).
Proof.
  intros Hb He. unfold chat_with_gemini, try_block. by rewrite Hb, He.
Qed.

(** C7. With a client configured, a request whose history has a turn
    without a [role] or a [text] key makes the history loop raise; the
    handler answers status 500 with the exception's text as detail and
    sends no call. When every turn before the first such turn is well
    formed, the exception is the key lookup failure itself. *)
Theorem C7_missing_key (c : Client) (req : ChatRequest) (w : World) :
  Exists lacks_key (history req) →
  ∃ e,
    history_loop [] (history req) = inl e
    ∧ chat (Some c) req w
      = (print ("Gemini Error: " +:+ str e) w, HTTPException 500 (str e))
    ∧ calls (chat (Some c) req w).1 = calls w
    ∧ (∀ good units m rest,
         history req = good ++ m :: rest →
         Forall2 unit_of good units → lacks_key m →
         e = KeyError "role" ∨ e = KeyError "text").
Proof.
  intros Hex.
  destruct (history_loop_lacks_key _ [] Hex) as [e He].
  exists e. split; [done|].
  assert (build_contents req = inl e) as Hb.
  { unfold build_contents. by rewrite He. }
  pose proof (chat_with_client c req w) as H. rewrite Hb in H.
  split; [done|]. split; [by rewrite H|].
  intros good units m rest Hh Hu Hm.
  destruct (history_loop_first_failure good m rest units [] Hu Hm) as [H'|H'];
    rewrite <-Hh, He in H'; injection H' as ->; eauto.
Qed.

End chat_properties.

(** * Properties of the HTTP surface *)

Lemma mapM_as_str_inv l hs : mapM as_str l = Some hs → l = JStr <$> hs.
Proof.
  rewrite mapM_Some. induction 1 as [|x y l hs Hx Hrest IH]; [done|].
  destruct x; by simplify_eq/=.
Qed.

Lemma mapM_as_dict_inv l rs : mapM as_dict l = Some rs → l = JObj <$> rs.
Proof.
  rewrite mapM_Some. induction 1 as [|x y l rs Hx Hrest IH]; [done|].
  destruct x; by simplify_eq/=.
Qed.

Lemma validate_FileRecordCreate_Some_inv body record :
  validate_FileRecordCreate body = Some record →
  ∃ m, body = JObj m
       ∧ m !! "filename" = Some (JStr (filename record))
       ∧ m !! "headers" = Some (JArr (JStr <$> headers record))
       ∧ m !! "rows" = Some (JArr (JObj <$> rows record))
       ∧ field_optional_str m "description" = Some (description record).
Proof.
  destruct body as [| | | | | |m]; try done. simpl.
  unfold field_str, field_list.
  destruct (m !! "filename") as [[| | | |f| |]|] eqn:Hf; try done.
  destruct (m !! "headers") as [[| | | | |hl|]|] eqn:Hhl; try done.
  destruct (mapM as_str hl) as [hs|] eqn:Hh; [|done].
  destruct (m !! "rows") as [[| | | | |rl|]|] eqn:Hrl; try done.
  destruct (mapM as_dict rl) as [rs|] eqn:Hr; [|done].
  destruct (field_optional_str m "description") as [d|] eqn:Hd; [|done].
  intros [= <-]. simpl. exists m.
  apply mapM_as_str_inv in Hh as ->. apply mapM_as_dict_inv in Hr as ->.
  done.
Qed.

Lemma validate_FileRecordCreate_Some m f hs rs d :
  m !! "filename" = Some (JStr f) →
  m !! "headers" = Some (JArr (JStr <$> hs)) →
  m !! "rows" = Some (JArr (JObj <$> rs)) →
  field_optional_str m "description" = Some d →
  validate_FileRecordCreate (JObj m)
  = Some {| filename := f; headers := hs; rows := rs; description := d |}.
Proof.
  intros Hf Hh Hr Hd. simpl. unfold field_str, field_list.
  rewrite Hf, Hh, Hr, Hd.
  by rewrite !mapM_fmap_Some by done.
Qed.

Section http_properties.

Variable validation_message : json → string.
Variable generate_content :
  Client → nat → types.GenerateContent → Exception + option string.
Variable random_rowid : list Z → Z.

Abbreviation handle := (main.handle validation_message generate_content random_rowid).
Abbreviation serve := (main.serve validation_message generate_content random_rowid).

(** One request either leaves the table as it is or, for a create
    request, appends one row under the store's next key. *)
Lemma handle_db utcnow app rq :
  db (handle utcnow app rq).1 = db app
  ∨ ∃ body r, rq = POST_records body
              ∧ db (handle utcnow app rq).1 = db app ++ [r]
              ∧ id r = next_id random_rowid (db app).
Proof.
  destruct rq as [|body| |body|method path]; simpl; try by left.
  - destruct (validate_FileRecordCreate body) as [record|]; [|by left].
    right. eexists body, _. split; [done|]. split; reflexivity.
  - destruct (validate_ChatRequest body) as [req|]; [|by left].
    destruct (chat_with_gemini _ _ _ _ _); by left.
Qed.

Lemma serve_db rqs : ∀ app, db app `prefix_of` db (serve app rqs).1.
Proof.
  induction rqs as [|[utcnow rq] rqs IH]; intros app; simpl; [done|].
  destruct (main.handle _ _ _ utcnow app rq) as [app' resp] eqn:Hh.
  specialize (IH app').
  destruct (main.serve _ _ _ app' rqs) as [app'' resps]. simpl in *.
  etrans; [|exact IH].
  destruct (handle_db utcnow app rq) as [Heq|(body & r & _ & Heq & _)];
    rewrite Hh in Heq; simpl in Heq; rewrite Heq; [done|].
  by apply prefix_app_r.
Qed.

(** C9. A request never changes or removes a stored row: a single
    request leaves the table as it is, except a create request, which
    appends one row, under a key that is not in use (the store's random
    draw being an unused key); the list request, the chat request and
    unrouted requests leave it as it is; so after any run of requests
    the table starts with the rows it had, field for field. *)
Theorem C9_records_never_change (app : App) :
  (∀ utcnow rq,
     db (handle utcnow app rq).1 = db app
     ∨ ∃ body r, rq = POST_records body
                 ∧ db (handle utcnow app rq).1 = db app ++ [r]
                 ∧ (draws_unused random_rowid → id r ∉ id <$> db app))
  ∧ (∀ utcnow, (handle utcnow app GET_records).1 = app)
  ∧ (∀ utcnow body, db (handle utcnow app (POST_chat body)).1 = db app)
  ∧ (∀ utcnow method path,
       handle utcnow app (Unrouted method path) = (app, FrameworkResponse))
  ∧ (∀ rqs, db app `prefix_of` db (serve app rqs).1).
Proof.
  split.
  { intros utcnow rq.
    destruct (handle_db utcnow app rq) as [H|(body & r & Hrq & Hdb & Hid)];
      [by left|].
    right. exists body, r. split; [done|]. split; [done|].
    intros Hdraw. rewrite Hid. by apply next_id_unused. }
  split; [done|].
  split.
  { intros utcnow body.
    destruct (handle_db utcnow app (POST_chat body))
      as [H|(body' & r & Hrq & _)]; [done|discriminate]. }
  split; [done|].
  intros rqs. apply serve_db.
Qed.

(** C10. A create request whose body does not have a string filename,
    a headers list of strings and a rows list of objects is refused by
    body validation with status 422, and the application state is the
    one before the request. A body with a string filename, any list of
    header strings and any list of row objects is accepted and stored
    as given, whatever the keys and values of the rows. *)
Theorem C10_create_body_validation :
  (∀ utcnow app body,
     ¬ (filename_is_str body ∧ headers_is_list_of_str body
        ∧ rows_is_list_of_objects body) →
     handle utcnow app (POST_records body) = (app, RequestValidationError))
  ∧ status_of RequestValidationError = Some 422
  ∧ (∀ utcnow app f hs rs,
       ∃ r,
         handle utcnow app
           (POST_records
              (JObj (<["filename" := JStr f]>
                       (<["headers" := JArr (JStr <$> hs)]>
                          (<["rows" := JArr (JObj <$> rs)]> ∅)))))
         = ({| client := client app; db := db app ++ [r];
               world := world app |}, Saved (id r))
         ∧ models.filename r = f
         ∧ models.headers r = hs
         ∧ models.rows r = rs
         ∧ models.description r = None).
Proof.
  split; [|split; [done|]].
  - intros utcnow app body Hbad. simpl.
    destruct (validate_FileRecordCreate body) as [record|] eqn:Hv; [|done].
    destruct Hbad.
    apply validate_FileRecordCreate_Some_inv in Hv
      as (m & -> & Hf & Hh & Hr & _).
    unfold filename_is_str, headers_is_list_of_str, rows_is_list_of_objects.
    repeat split; eexists _, _; (split; [reflexivity|eassumption]).
  - intros utcnow app f hs rs.
    exists {| id := next_id random_rowid (db app); models.filename := f;
              models.headers := hs; models.rows := rs;
              timestamp := utcnow; models.description := None |}.
    unfold main.handle.
    rewrite (validate_FileRecordCreate_Some _ f hs rs None).
    + simpl. split; [reflexivity|done].
    + by simplify_map_eq.
    + by simplify_map_eq.
    + by simplify_map_eq.
    + unfold field_optional_str. by simplify_map_eq.
Qed.

End http_properties.

(** * The model at the sample inputs *)

(** The create scenario of the specification: first id 1, then a list of
    one record with the posted headers and rows. *)
Example scenario_create_then_list :
  let '(app1, saved) :=
    handle sample.message_of sample.answers sample.pick 1000 sample.app0
      (POST_records sample.body) in
  saved = Saved 1
  ∧ (handle sample.message_of sample.answers sample.pick 2000 app1 GET_records).2
    = Records [ {| id := 1; models.filename := "a.csv";
                   models.headers := ["x"; "y"];
                   models.rows := [sample.row];
                   timestamp := 1000; models.description := None |} ].
Proof. vm_compute. done. Qed.

Example scenario_list_order :
  get_records
    (create_all sample.pick []
       [ (10, sample.record); (30, sample.record); (20, sample.record) ]).1
  = Records
      [ {| id := 2; models.filename := "a.csv"; models.headers := ["x"; "y"];
           models.rows := [sample.row]; timestamp := 30;
           models.description := None |};
        {| id := 3; models.filename := "a.csv"; models.headers := ["x"; "y"];
           models.rows := [sample.row]; timestamp := 20;
           models.description := None |};
        {| id := 1; models.filename := "a.csv"; models.headers := ["x"; "y"];
           models.rows := [sample.row]; timestamp := 10;
           models.description := None |} ].
Proof. vm_compute. done. Qed.

Example scenario_chat_answer :
  chat_with_gemini sample.message_of sample.answers (Some sample.cli)
    sample.req sample.w0
  = ({| calls := [sample.call]; stdout := [] |}, ChatText (Some "March")).
Proof. vm_compute. done. Qed.

(** A chat body without the required fields never reaches the handler. *)
Example scenario_chat_body_refused :
  handle sample.message_of sample.answers sample.pick 0
    (startup None None sample.w0) (POST_chat (JObj ∅))
  = (startup None None sample.w0, RequestValidationError).
Proof. vm_compute. done. Qed.

(** C3 as first stated fails: without a credential, a chat body that
    lacks the required fields is answered by body validation, not by the
    handler's status 500. *)
Lemma C3_counterexample :
  ¬ (∀ body,
       (handle sample.message_of sample.answers sample.pick 0
          (startup None None sample.w0) (POST_chat body)).2
       = HTTPException 500 "Server Gemini API Key not configured").
Proof.
  intros H. specialize (H (JObj ∅)). vm_compute in H. discriminate.
Qed.

Lemma C1_final_unit_witness :
  calls (chat_with_gemini sample.message_of sample.answers (Some sample.cli)
           sample.req sample.w0).1
  = calls sample.w0 ++ [sample.call]
  ∧ last (types.contents sample.call)
    = Some (final_unit "Q1 sales" "What was the peak month?").
Proof.
  split; [vm_compute; reflexivity|].
  apply (C1_final_unit sample.message_of sample.answers sample.cli
           sample.req sample.w0 sample.call).
  vm_compute; reflexivity.
Defined.

Lemma sample_units : Forall2 unit_of sample.hist sample.units.
Proof.
  constructor; [by apply unit_of_user|].
  constructor; [|constructor].
  by apply (unit_of_model _ (JStr "assistant")).
Defined.

Lemma C2_history_units_witness :
  Forall2 unit_of (history sample.req) sample.units
  ∧ build_contents sample.req
    = inr (sample.units ++ [final_unit "Q1 sales" "What was the peak month?"]).
Proof.
  split; [exact sample_units|].
  apply (C2_history_units sample.message_of sample.answers sample.cli
           sample.req sample.w0 sample.units).
  exact sample_units.
Defined.

Lemma C4_upstream_failure_witness :
  chat_with_gemini sample.message_of sample.fails (Some sample.cli)
    sample.req sample.w0
  = ({| calls := [sample.call];
        stdout := ["Gemini Error: 429 quota exceeded"] |},
     HTTPException 500 "429 quota exceeded").
Proof.
  apply (C4_upstream_failure sample.message_of sample.fails sample.cli
           sample.req sample.w0 (types.contents sample.call)
           (UpstreamError "429 quota exceeded"));
    vm_compute; reflexivity.
Defined.

Lemma sample_bad_history : Exists lacks_key (history sample.bad_req).
Proof. apply Exists_cons_tl, Exists_cons_hd. left. vm_compute. reflexivity. Defined.

Lemma C7_missing_key_witness :
  Exists lacks_key (history sample.bad_req)
  ∧ ∃ e,
      chat_with_gemini sample.message_of sample.answers (Some sample.cli)
        sample.bad_req sample.w0
      = (print ("Gemini Error: " +:+ str sample.message_of e) sample.w0,
         HTTPException 500 (str sample.message_of e)).
Proof.
  split; [exact sample_bad_history|].
  destruct (C7_missing_key sample.message_of sample.answers sample.cli
              sample.bad_req sample.w0 sample_bad_history)
    as (e & _ & Hchat & _).
  exists e. exact Hchat.
Defined.

Lemma sample_bad_body :
  ¬ (filename_is_str sample.bad_body ∧ headers_is_list_of_str sample.bad_body
     ∧ rows_is_list_of_objects sample.bad_body).
Proof.
  intros [(m & f & Heq & Hf) _]. injection Heq as <-.
  vm_compute in Hf. discriminate.
Defined.

Lemma C10_create_body_validation_witness :
  handle sample.message_of sample.answers sample.pick 1000 sample.app0
    (POST_records sample.bad_body)
  = (sample.app0, RequestValidationError).
Proof.
  apply (proj1 (C10_create_body_validation sample.message_of sample.answers sample.pick)).
  exact sample_bad_body.
Defined.

(** * Further properties of the record store *)

Lemma insert_desc_oldest r l :
  Forall (λ x, timestamp r < timestamp x) l → insert_desc r l = l ++ [r].
Proof.
  induction 1 as [|x l Hx _ IH]; simpl; [done|].
  destruct (Z.leb_spec (timestamp x) (timestamp r)); [lia|].
  by rewrite IH.
Qed.

Lemma order_by_timestamp_desc_reverse table :
  StronglySorted (λ a b, timestamp a < timestamp b) table →
  order_by_timestamp_desc table = reverse table.
Proof.
  induction 1 as [|r table _ IH Hr]; simpl; [done|].
  rewrite IH, reverse_cons.
  apply insert_desc_oldest. by apply Forall_reverse.
Qed.

Lemma StronglySorted_timestamps table :
  StronglySorted Z.lt (timestamp <$> table) →
  StronglySorted (λ a b, timestamp a < timestamp b) table.
Proof.
  induction table as [|r table IH]; simpl; [constructor|].
  intros H. apply StronglySorted_inv in H as [Ht Hr].
  constructor; [by apply IH|].
  by rewrite Forall_fmap in Hr.
Qed.

Lemma create_all_timestamps random_rowid inputs : ∀ table,
  timestamp <$> (create_all random_rowid table inputs).1
  = (timestamp <$> table) ++ inputs.*1.
Proof.
  induction inputs as [|[utcnow record] inputs IH]; intros table; simpl.
  - by rewrite app_nil_r.
  - specialize (IH (table ++ [ {| id := next_id random_rowid table;
                                  models.filename := filename record;
                                  models.headers := headers record;
                                  models.rows := rows record;
                                  timestamp := utcnow;
                                  models.description := description record |} ])).
    destruct (create_all _ _ inputs) as [table' resps]. simpl in *.
    rewrite IH, fmap_app. simpl. by rewrite <-app_assoc.
Qed.

(** X1. When the clock readings of the stored rows and of a run of
    creates increase strictly in creation order, the listing after the
    run is the table in reverse creation order. *)
Theorem X1_list_reverse_creation_order (random_rowid : list Z → Z)
    (table : list FileRecord) (inputs : list (Z * FileRecordCreate)) :
  StronglySorted Z.lt ((timestamp <$> table) ++ inputs.*1) →
  get_records (create_all random_rowid table inputs).1
  = Records (reverse (create_all random_rowid table inputs).1).
Proof.
  intros Hclock. unfold get_records. f_equal.
  apply order_by_timestamp_desc_reverse.
  rewrite <-(create_all_timestamps random_rowid) in Hclock.
  by apply StronglySorted_timestamps.
Qed.

Lemma X1_list_reverse_creation_order_witness :
  get_records (create_all sample.pick [] [(10, sample.record); (20, sample.record)]).1
  = Records (reverse (create_all sample.pick [] [(10, sample.record); (20, sample.record)]).1).
Proof.
  apply (X1_list_reverse_creation_order sample.pick []
           [(10, sample.record); (20, sample.record)]).
  simpl. repeat constructor.
Defined.

Lemma next_id_consecutive random_rowid table :
  id <$> table = Z.of_nat <$> seq 1 (length table) →
  Z.of_nat (length table) < MAX_ROWID →
  next_id random_rowid table = Z.of_nat (S (length table)).
Proof.
  intros Hids Hroom. unfold next_id.
  destruct table as [|r table]; [done|].
  rewrite Hids. simpl length in *.
  remember (length table) as n.
  change (Z.of_nat <$> seq 1 (S n)) with (Z.of_nat 1 :: (Z.of_nat <$> seq 2 n)).
  set (k := Z.of_nat 1). set (ks := Z.of_nat <$> seq 2 n).
  pose proof (foldr_max_elem k ks) as Hin.
  assert (Z.of_nat (S n) ∈ k :: ks) as Hn.
  { change (k :: ks) with (Z.of_nat <$> seq 1 (S n)).
    apply list_elem_of_fmap_2, elem_of_seq. lia. }
  apply foldr_max_ge in Hn.
  change (k :: ks) with (Z.of_nat <$> seq 1 (S n)) in Hin.
  apply list_elem_of_fmap in Hin as (j & Hj & Hin).
  apply elem_of_seq in Hin.
  destruct (Z.ltb_spec (foldr Z.max k ks) MAX_ROWID); lia.
Qed.

Lemma create_all_consecutive random_rowid inputs : ∀ table,
  id <$> table = Z.of_nat <$> seq 1 (length table) →
  Z.of_nat (length table + length inputs) ≤ MAX_ROWID →
  (create_all random_rowid table inputs).2
  = (λ k, Saved (Z.of_nat k)) <$> seq (S (length table)) (length inputs).
Proof.
  induction inputs as [|[utcnow record] inputs IH]; intros table Hids Hroom;
    simpl; [done|].
  simpl in Hroom.
  assert (next_id random_rowid table = Z.of_nat (S (length table))) as Hnext
    by (apply next_id_consecutive; [done|lia]).
  set (r := {| id := next_id random_rowid table;
               models.filename := filename record;
               models.headers := headers record; models.rows := rows record;
               timestamp := utcnow; models.description := description record |}).
  specialize (IH (table ++ [r])).
  destruct (create_all random_rowid (table ++ [r]) inputs) as [table' resps].
  simpl in *.
  rewrite Hnext. f_equal.
  rewrite IH.
  - rewrite length_app. simpl.
    by replace (length table + 1)%nat with (S (length table)) by lia.
  - rewrite fmap_app, length_app. simpl.
    replace (length table + 1)%nat with (S (length table)) by lia.
    rewrite seq_S, fmap_app, Hids. simpl. by rewrite Hnext.
  - rewrite length_app. simpl. lia.
Qed.

(** X2. On a store that starts empty, the k-th create of a run answers
    the id k: the ids are 1, 2, ..., n, whatever the records, the clock
    readings and the store's random source, for every run that fits
    below the largest 64-bit key. *)
Theorem X2_ids_from_empty_store (random_rowid : list Z → Z)
    (inputs : list (Z * FileRecordCreate)) :
  Z.of_nat (length inputs) ≤ MAX_ROWID →
  (create_all random_rowid (init_db None) inputs).2
  = (λ k, Saved (Z.of_nat k)) <$> seq 1 (length inputs).
Proof. intros Hroom. by apply (create_all_consecutive random_rowid inputs []). Qed.

(** * Further properties of the chat proxy *)

Lemma history_step_normalized m u : history_step m = inr u → normalized u.
Proof.
  unfold history_step, getitem.
  destruct (m !! "role") as [r|]; simpl; [|done].
  destruct (m !! "text") as [t|]; simpl; [|done].
  destruct (types.Part_of t) as [e|p]; simpl; [done|].
  intros [= <-]. split; [|done]. simpl.
  destruct (eq_str r "user"); eauto.
Qed.

Lemma history_loop_normalized hist : ∀ acc cs,
  history_loop acc hist = inr cs →
  ∃ units, cs = acc ++ units
           ∧ length units = length hist
           ∧ Forall normalized units.
Proof.
  induction hist as [|m hist IH]; intros acc cs; simpl.
  - intros [= <-]. exists []. by rewrite app_nil_r.
  - destruct (history_step m) as [e|u] eqn:Hm; simpl; [done|].
    intros (units & -> & Hlen & Hn)%IH.
    exists (u :: units). rewrite <-app_assoc. simpl.
    split; [done|]. split; [by rewrite Hlen|].
    constructor; [by eapply history_step_normalized|done].
Qed.

(** X3. Whatever the history holds, when the steps before the call
    succeed the content sequence has one unit per history turn plus the
    final unit; every unit of a turn has role "user" or "model" and
    exactly one part, also for a turn whose text is null. *)
Theorem X3_contents_shape (req : ChatRequest) (cs : list types.Content) :
  build_contents req = inr cs →
  length cs = S (length (history req))
  ∧ ∃ units, cs = units ++ [final_unit (data_context req) (message req)]
             ∧ Forall normalized units.
Proof.
  intros (units & Hloop & ->)%build_contents_inv.
  apply history_loop_normalized in Hloop as (units' & -> & Hlen & Hn).
  simpl. split; [|by eauto].
  rewrite length_app, Hlen. simpl. lia.
Qed.

Lemma X3_contents_shape_witness :
  length (sample.units ++ [final_unit "Q1 sales" "What was the peak month?"])
  = S (length (history sample.req)).
Proof.
  apply (X3_contents_shape sample.req
           (sample.units ++ [final_unit "Q1 sales" "What was the peak month?"])).
  vm_compute. reflexivity.
Defined.

Section chat_outcomes.

Variable validation_message : json → string.
Variable generate_content :
  Client → nat → types.GenerateContent → Exception + option string.
Variable random_rowid : list Z → Z.

Abbreviation chat' := (chat_with_gemini validation_message generate_content).
Abbreviation str' := (main.str validation_message).

(** The four ways the handler can end. *)
Lemma chat_cases cl req w :
  (cl = None
   ∧ chat' cl req w
     = (w, HTTPException 500 "Server Gemini API Key not configured"))
  ∨ (∃ c e, cl = Some c ∧ build_contents req = inl e
            ∧ chat' cl req w
              = (print ("Gemini Error: " +:+ str' e) w,
                 HTTPException 500 (str' e)))
  ∨ (∃ c cs e,
       cl = Some c ∧ build_contents req = inr cs
       ∧ chat' cl req w
         = ({| calls := calls w ++
                 [ {| types.model := model req; types.contents := cs;
                      types.system_instruction := SYSTEM_INSTRUCTION |} ];
               stdout := stdout w ++ ["Gemini Error: " +:+ str' e] |},
            HTTPException 500 (str' e)))
  ∨ (∃ c cs t,
       cl = Some c ∧ build_contents req = inr cs
       ∧ chat' cl req w
         = ({| calls := calls w ++
                 [ {| types.model := model req; types.contents := cs;
                      types.system_instruction := SYSTEM_INSTRUCTION |} ];
               stdout := stdout w |},
            ChatText t)).
Proof.
  destruct cl as [c|]; [|by left].
  right. unfold chat_with_gemini, try_block.
  destruct (build_contents req) as [e|cs] eqn:Hb; [left; by eauto|].
  right. destruct (generate_content _ _ _) as [e|t]; [left|right]; by eauto 10.
Qed.

(** X4. When the steps before the call succeed and the generation
    service returns a text (or no text), the handler answers with exactly
    that text, has sent exactly one call, carrying the request's model
    name and the fixed system instruction, and has printed nothing. *)
Theorem X4_chat_success (c : Client) (req : ChatRequest) (w : World)
    (cs : list types.Content) (t : option string) :
  build_contents req = inr cs →
  generate_content c (length (calls w))
    {| types.model := model req; types.contents := cs;
       types.system_instruction := SYSTEM_INSTRUCTION |} = inr t →
  chat' (Some c) req w
  = ({| calls := calls w ++
          [ {| types.model := model req; types.contents := cs;
               types.system_instruction := SYSTEM_INSTRUCTION |} ];
        stdout := stdout w |},
     ChatText t).
Proof.
  intros Hb Ht. unfold chat_with_gemini, try_block. by rewrite Hb, Ht.
Qed.

(** X5. Whatever the client, the request and the remote service do, the
    chat handler ends in one of two ways: a text answer, after exactly
    one call and with nothing printed; or status 500, after at most one
    call. It never answers with another status. *)
Theorem X5_chat_answers (cl : option Client) (req : ChatRequest) (w : World) :
  (∃ t call,
     chat' cl req w
     = ({| calls := calls w ++ [call]; stdout := stdout w |}, ChatText t))
  ∨ (∃ detail,
       (chat' cl req w).2 = HTTPException 500 detail
       ∧ (length (calls (chat' cl req w).1) ≤ S (length (calls w)))%nat
       ∧ calls w `prefix_of` calls (chat' cl req w).1).
Proof.
  destruct (chat_cases cl req w)
    as [[_ ->]|[(c & e & _ & _ & ->)|[(c & cs & e & _ & _ & ->)
       |(c & cs & t & _ & _ & ->)]]]; simpl.
  - right. exists "Server Gemini API Key not configured".
    split; [done|]. split; [lia|done].
  - right. eexists. split; [done|]. split; [lia|done].
  - right. eexists. split; [done|]. rewrite length_app. simpl.
    split; [lia|by apply prefix_app_r].
  - left. by eauto.
Qed.

End chat_outcomes.

Lemma history_loop_app good : ∀ acc units rest,
  history_loop acc good = inr units →
  history_loop acc (good ++ rest) = history_loop units rest.
Proof.
  induction good as [|g good IH]; intros acc units rest; simpl.
  - by intros [= <-].
  - destruct (history_step g) as [e|u]; simpl; [done|]. apply IH.
Qed.

Lemma history_step_missing m :
  lacks_key m →
  history_step m
  = inl (KeyError match m !! "role" with None => "role" | Some _ => "text" end).
Proof.
  unfold history_step, getitem. intros [Hr|Ht].
  - by rewrite Hr.
  - destruct (m !! "role"); [by rewrite Ht|done].
Qed.

Section missing_key.

Variable validation_message : json → string.
Variable generate_content :
  Client → nat → types.GenerateContent → Exception + option string.
Variable random_rowid : list Z → Z.

(** X6. When the turns before a turn without [role] or [text] all map
    to units, the handler's answer names the missing key in quotes: the
    detail is ['role'] when [role] is missing (also when [text] is missing
    too), ['text'] otherwise; the same line is printed after "Gemini
    Error: ", no call is sent, and the turns after it play no part. *)
Theorem X6_missing_key_detail (c : Client) (req : ChatRequest) (w : World)
    (good rest : list (gmap string json)) (m : gmap string json)
    (units : list types.Content) :
  history req = good ++ m :: rest →
  history_loop [] good = inr units →
  lacks_key m →
  chat_with_gemini validation_message generate_content (Some c) req w
  = (print ("Gemini Error: '"
              +:+ match m !! "role" with None => "role" | Some _ => "text" end
              +:+ "'") w,
     HTTPException 500
       ("'" +:+ match m !! "role" with None => "role" | Some _ => "text" end
            +:+ "'")).
Proof.
  intros Hh Hgood Hm.
  assert (build_contents req
          = inl (KeyError match m !! "role" with
                          | None => "role" | Some _ => "text" end)) as Hb.
  { unfold build_contents.
    rewrite Hh, (history_loop_app _ _ _ _ Hgood). simpl.
    by rewrite (history_step_missing _ Hm). }
  unfold chat_with_gemini, try_block. by rewrite Hb.
Qed.

End missing_key.

Lemma X6_missing_key_detail_witness :
  chat_with_gemini sample.message_of sample.answers (Some sample.cli)
    sample.bad_req sample.w0
  = (print "Gemini Error: 'role'" sample.w0, HTTPException 500 "'role'").
Proof.
  etrans.
  - apply (X6_missing_key_detail sample.message_of sample.answers sample.cli
             sample.bad_req sample.w0
             [sample.turn (JStr "user") (JStr "a")] []
             {["text" := JStr "b"]}
             [ {| types.role := "user";
                  types.parts := [ {| types.text := Some "a" |} ] |} ]).
    + reflexivity.
    + vm_compute. reflexivity.
    + left. vm_compute. reflexivity.
  - vm_compute. reflexivity.
Defined.

Lemma X4_chat_success_witness :
  chat_with_gemini sample.message_of sample.answers (Some sample.cli)
    sample.req sample.w0
  = ({| calls := [sample.call]; stdout := [] |}, ChatText (Some "March")).
Proof.
  apply (X4_chat_success sample.message_of sample.answers sample.cli
           sample.req sample.w0 (types.contents sample.call) (Some "March"));
    vm_compute; reflexivity.
Defined.

(** * Properties of runs of requests *)

Lemma build_contents_well_formed req cs mdl :
  build_contents req = inr cs →
  well_formed_call {| types.model := mdl; types.contents := cs;
                      types.system_instruction := SYSTEM_INSTRUCTION |}.
Proof.
  intros (units & Hloop & ->)%build_contents_inv.
  apply history_loop_normalized in Hloop as (units' & -> & _ & Hn).
  split; [done|]. simpl. by eauto.
Qed.

Section runs.

Variable validation_message : json → string.
Variable generate_content :
  Client → nat → types.GenerateContent → Exception + option string.
Variable random_rowid : list Z → Z.

Abbreviation handle' := (main.handle validation_message generate_content random_rowid).
Abbreviation serve' := (main.serve validation_message generate_content random_rowid).

Lemma serve_cons app utcnow rq rqs :
  serve' app ((utcnow, rq) :: rqs)
  = ((serve' (handle' utcnow app rq).1 rqs).1,
     (handle' utcnow app rq).2 :: (serve' (handle' utcnow app rq).1 rqs).2).
Proof.
  cbn [main.serve]. destruct (main.handle _ _ _ utcnow app rq) as [app' resp].
  cbn [fst snd]. by destruct (main.serve _ _ _ app' rqs).
Qed.

Lemma handle_client utcnow app rq : client (handle' utcnow app rq).1 = client app.
Proof.
  destruct rq as [|body| |body|method path]; simpl; try done.
  - by destruct (validate_FileRecordCreate body).
  - destruct (validate_ChatRequest body); [|done].
    by destruct (chat_with_gemini _ _ _ _ _).
Qed.

(** What one request does to the world. *)
Lemma handle_world utcnow app rq :
  ∃ new,
    calls (world (handle' utcnow app rq).1) = calls (world app) ++ new
    ∧ Forall well_formed_call new
    ∧ (length new ≤ if is_POST_chat rq then 1 else 0)%nat
    ∧ (client app = None → new = [])
    ∧ stdout (world app) `prefix_of` stdout (world (handle' utcnow app rq).1)
    ∧ (client app = None →
       stdout (world (handle' utcnow app rq).1) = stdout (world app)).
Proof.
  assert (∃ new : list types.GenerateContent,
            calls (world app) = calls (world app) ++ new
            ∧ Forall well_formed_call new
            ∧ (length new ≤ 0)%nat
            ∧ (client app = None → new = [])
            ∧ stdout (world app) `prefix_of` stdout (world app)
            ∧ (client app = None → stdout (world app) = stdout (world app)))
    as Hsame.
  { exists []. rewrite app_nil_r. by repeat split. }
  destruct rq as [|body| |body|method path]; simpl; try done.
  - by destruct (validate_FileRecordCreate body).
  - destruct (validate_ChatRequest body) as [req|]; simpl.
    2:{ destruct Hsame as (new & ? & ? & ? & ? & ? & ?).
        exists new. repeat split; try done. lia. }
    destruct (chat_cases validation_message generate_content
                (client app) req (world app))
      as [[Hc ->]|[(c & e & Hc & Hb & ->)|[(c & cs & e & Hc & Hb & ->)
         |(c & cs & t & Hc & Hb & ->)]]]; simpl.
    + exists []. rewrite app_nil_r. repeat split; try done. simpl; lia.
    + exists []. rewrite app_nil_r. repeat split; try done.
      * simpl; lia.
      * by apply prefix_app_r.
      * by rewrite Hc.
    + eexists [_]. repeat split; try done.
      * constructor; [|done]. by eapply build_contents_well_formed.
      * by rewrite Hc.
      * by apply prefix_app_r.
      * by rewrite Hc.
    + eexists [_]. repeat split; try done.
      * constructor; [|done]. by eapply build_contents_well_formed.
      * by rewrite Hc.
Qed.

(** X7. Over any run of requests: the client set at start-up stays as
    it is; the log of calls only grows, by at most one call per chat
    request; and every call sent carries the fixed system instruction and
    a content sequence of normalized units ending in one synthesized
    final unit. What was printed stays printed. *)
Theorem X7_run_calls (rqs : list (Z * Request)) (app : App) :
  client (serve' app rqs).1 = client app
  ∧ stdout (world app) `prefix_of` stdout (world (serve' app rqs).1)
  ∧ ∃ new,
      calls (world (serve' app rqs).1) = calls (world app) ++ new
      ∧ Forall well_formed_call new
      ∧ (length new ≤ length (List.filter (λ rq, is_POST_chat rq.2) rqs))%nat.
Proof.
  revert app. induction rqs as [|[utcnow rq] rqs IH]; intros app.
  - simpl. split; [done|]. split; [done|].
    exists []. rewrite app_nil_r. repeat split; [done|simpl; lia].
  - rewrite serve_cons. simpl fst.
    destruct (IH (handle' utcnow app rq).1) as (Hcl & Hout & new' & Hc & Hwf & Hlen).
    destruct (handle_world utcnow app rq) as (new & Hc0 & Hwf0 & Hlen0 & _ & Hout0 & _).
    split; [by rewrite Hcl, handle_client|].
    split; [by etrans|].
    exists (new ++ new'). rewrite Hc, Hc0, <-app_assoc.
    split; [done|]. split; [by apply Forall_app|].
    rewrite length_app. simpl.
    destruct (is_POST_chat rq); simpl in *; lia.
Qed.

(** X8. Without a client, a whole run of requests sends no call and
    prints nothing, the client stays missing, and no answer of the run is
    a chat text. *)
Theorem X8_run_without_client (rqs : list (Z * Request)) (app : App) :
  client app = None →
  client (serve' app rqs).1 = None
  ∧ world (serve' app rqs).1 = world app
  ∧ Forall (λ resp, is_ChatText resp = false) (serve' app rqs).2.
Proof.
  revert app. induction rqs as [|[utcnow rq] rqs IH]; intros app Hcl.
  - by repeat split.
  - rewrite serve_cons. simpl.
    assert (client (handle' utcnow app rq).1 = None) as Hcl'
      by (by rewrite handle_client).
    destruct (IH _ Hcl') as (Hc & Hw & Hresp).
    assert (world (handle' utcnow app rq).1 = world app
            ∧ is_ChatText (handle' utcnow app rq).2 = false) as [Hw0 Ht0].
    { destruct rq as [|body| |body|method path]; simpl; try done.
      - by destruct (validate_FileRecordCreate body).
      - destruct (validate_ChatRequest body); [|done]. by rewrite Hcl. }
    split; [done|]. split; [by rewrite Hw|]. by constructor.
Qed.

End runs.

Section record_runs.

Variable validation_message : json → string.
Variable generate_content :
  Client → nat → types.GenerateContent → Exception + option string.
Variable random_rowid : list Z → Z.

Abbreviation handle'' := (main.handle validation_message generate_content random_rowid).
Abbreviation serve'' := (main.serve validation_message generate_content random_rowid).

Lemma chat_not_Saved cl req w :
  is_Saved (chat_with_gemini validation_message generate_content cl req w).2
  = false.
Proof.
  destruct (chat_cases validation_message generate_content cl req w)
    as [[_ ->]|[(c & e & _ & _ & ->)|[(c & cs & e & _ & _ & ->)
       |(c & cs & t & _ & _ & ->)]]]; done.
Qed.

Lemma handle_rows utcnow app rq :
  length (db (handle'' utcnow app rq).1)
  = (length (db app) + if is_Saved (handle'' utcnow app rq).2 then 1 else 0)%nat
  ∧ (is_POST_records rq = false → db (handle'' utcnow app rq).1 = db app).
Proof.
  destruct rq as [|body| |body|method path]; simpl;
    try (split; [lia|done]).
  - destruct (validate_FileRecordCreate body); simpl; [|split; [lia|done]].
    rewrite length_app. simpl. done.
  - destruct (validate_ChatRequest body) as [req|]; simpl; [|split; [lia|done]].
    pose proof (chat_not_Saved (client app) req (world app)) as Hns.
    destruct (chat_with_gemini _ _ _ _ _) as [w' resp]. simpl in *.
    rewrite Hns. split; [lia|done].
Qed.

(** X9. Over any run of requests, the table grows by exactly one row for
    each answer "saved" and by nothing else. *)
Theorem X9_rows_match_saved_answers (rqs : list (Z * Request)) (app : App) :
  length (db (serve'' app rqs).1)
  = (length (db app) + length (List.filter is_Saved (serve'' app rqs).2))%nat.
Proof.
  revert app. induction rqs as [|[utcnow rq] rqs IH]; intros app.
  - simpl. lia.
  - rewrite (serve_cons validation_message generate_content random_rowid). simpl.
    rewrite IH.
    destruct (handle_rows utcnow app rq) as [-> _].
    destruct (is_Saved _); simpl; lia.
Qed.

(** X10. A run without create requests leaves the table as it is, so a
    listing after the run answers what a listing before it answers;
    chat requests and repeated listings in between change nothing. *)
Theorem X10_list_unchanged_without_create (rqs : list (Z * Request))
    (app : App) :
  Forall (λ rq, is_POST_records rq.2 = false) rqs →
  db (serve'' app rqs).1 = db app
  ∧ get_records (db (serve'' app rqs).1) = get_records (db app).
Proof.
  intros Hrqs.
  assert (db (serve'' app rqs).1 = db app) as ->; [|done].
  revert app. induction Hrqs as [|[utcnow rq] rqs Hrq _ IH]; intros app; [done|].
  rewrite (serve_cons validation_message generate_content random_rowid). simpl.
  rewrite IH. by apply handle_rows.
Qed.


End record_runs.

(** * Further properties of the request schemas *)

Lemma validate_ChatRequest_Some_inv body req :
  validate_ChatRequest body = Some req →
  ∃ m, body = JObj m
       ∧ m !! "message" = Some (JStr (message req))
       ∧ m !! "history" = Some (JArr (JObj <$> history req))
       ∧ m !! "data_context" = Some (JStr (data_context req))
       ∧ (m !! "model" = Some (JStr (model req))
          ∨ m !! "model" = None ∧ model req = "gemini-2.0-flash").
Proof.
  destruct body as [| | | | | |m]; try done. simpl.
  unfold field_str, field_list, field_str_default.
  destruct (m !! "message") as [[| | | |msg| |]|] eqn:Hmsg; try done.
  destruct (m !! "history") as [[| | | | |hl|]|] eqn:Hhl; try done.
  destruct (mapM as_dict hl) as [h|] eqn:Hh; [|done].
  destruct (m !! "data_context") as [[| | | |dc| |]|] eqn:Hdc; try done.
  apply mapM_as_dict_inv in Hh as ->.
  destruct (m !! "model") as [[| | | |mdl| |]|] eqn:Hmdl; try done;
    intros [= <-]; simpl; exists m; by eauto 10.
Qed.

Lemma validate_ChatRequest_Some m req :
  m !! "message" = Some (JStr (message req)) →
  m !! "history" = Some (JArr (JObj <$> history req)) →
  m !! "data_context" = Some (JStr (data_context req)) →
  (m !! "model" = Some (JStr (model req))
   ∨ m !! "model" = None ∧ model req = "gemini-2.0-flash") →
  validate_ChatRequest (JObj m) = Some req.
Proof.
  intros Hmsg Hh Hdc Hmdl. simpl.
  unfold field_str, field_list, field_str_default.
  rewrite Hmsg, Hh, Hdc, mapM_fmap_Some by done.
  destruct req as [msg h dc mdl]. simpl in *.
  by destruct Hmdl as [-> | [-> ->]].
Qed.

(** X12. A chat body is accepted exactly when it is an object with a
    string [message], a list of objects [history], a string
    [data_context] and a [model] that is a string or missing; the request
    handed to the handler has these values, with "gemini-2.0-flash" for a
    missing model. Other keys of the body play no part. *)
Theorem X12_chat_schema (body : json) (req : ChatRequest) :
  validate_ChatRequest body = Some req
  ↔ ∃ m, body = JObj m
         ∧ m !! "message" = Some (JStr (message req))
         ∧ m !! "history" = Some (JArr (JObj <$> history req))
         ∧ m !! "data_context" = Some (JStr (data_context req))
         ∧ (m !! "model" = Some (JStr (model req))
            ∨ m !! "model" = None ∧ model req = "gemini-2.0-flash").
Proof.
  split; [apply validate_ChatRequest_Some_inv|].
  intros (m & -> & Hmsg & Hh & Hdc & Hmdl).
  by apply validate_ChatRequest_Some.
Qed.

Lemma validate_FileRecordCreate_insert_other m k v :
  k ∉ create_keys →
  validate_FileRecordCreate (JObj (<[k := v]> m))
  = validate_FileRecordCreate (JObj m).
Proof.
  unfold create_keys. rewrite !not_elem_of_cons.
  intros (Hf & Hh & Hr & Hd & _). simpl.
  unfold field_str, field_list, field_optional_str.
  by rewrite !lookup_insert_ne by done.
Qed.

Section schema_properties.

Variable validation_message : json → string.
Variable generate_content :
  Client → nat → types.GenerateContent → Exception + option string.
Variable random_rowid : list Z → Z.

(** X13. A key of the create body other than filename, headers, rows
    and description changes nothing: the answer and the resulting state
    are those of the body without it. In particular a posted "id" or
    "timestamp" cannot set the stored id or timestamp. *)
Theorem X13_create_ignores_other_keys (utcnow : Z) (app : App)
    (m : gmap string json) (k : string) (v : json) :
  k ∉ create_keys →
  main.handle validation_message generate_content random_rowid utcnow app
    (POST_records (JObj (<[k := v]> m)))
  = main.handle validation_message generate_content random_rowid utcnow app
      (POST_records (JObj m)).
Proof.
  intros Hk. unfold main.handle.
  by rewrite (validate_FileRecordCreate_insert_other _ _ _ Hk).
Qed.

(** X14. For the create body, a description that is null and a
    description that is missing are the same thing. *)
Theorem X14_description_null_or_missing (utcnow : Z) (app : App)
    (m : gmap string json) :
  main.handle validation_message generate_content random_rowid utcnow app
    (POST_records (JObj (<["description" := JNull]> m)))
  = main.handle validation_message generate_content random_rowid utcnow app
      (POST_records (JObj (delete "description" m))).
Proof.
  unfold main.handle, validate_FileRecordCreate.
  unfold field_str, field_list, field_optional_str.
  rewrite lookup_insert_eq, lookup_delete_eq.
  by rewrite !lookup_insert_ne, !lookup_delete_ne by done.
Qed.

(** X15. A record accepted by a create request is listed by every later
    listing, with the id the create answered and the values of the body,
    whatever requests are served in between. *)
Theorem X15_created_record_stays_listed (utcnow utcnow' : Z) (app : App)
    (body : json) (record : FileRecordCreate) (rqs : list (Z * Request)) :
  validate_FileRecordCreate body = Some record →
  let created :=
    main.handle validation_message generate_content random_rowid utcnow app
      (POST_records body) in
  let later :=
    (main.serve validation_message generate_content random_rowid created.1 rqs).1 in
  ∃ r l,
    created.2 = Saved (id r)
    ∧ (main.handle validation_message generate_content random_rowid utcnow' later
         GET_records).2 = Records l
    ∧ r ∈ l
    ∧ models.filename r = filename record
    ∧ models.headers r = headers record
    ∧ models.rows r = rows record
    ∧ models.description r = description record
    ∧ timestamp r = utcnow.
Proof.
  intros Hv created later.
  destruct (create_record_db random_rowid utcnow record (db app))
    as (r & Hdb & Hresp & _ & Hf & Hh & Hr & Hd & Ht).
  assert (created = ({| client := client app; db := db app ++ [r];
                        world := world app |}, Saved (id r))) as Hcreated.
  { subst created. unfold main.handle. rewrite Hv.
    destruct (create_record random_rowid utcnow record (db app)) as [db' resp].
    simpl in Hdb, Hresp. by subst. }
  exists r, (order_by_timestamp_desc (db later)).
  split; [by rewrite Hcreated|]. split; [done|]. split; [|done].
  rewrite order_by_timestamp_desc_Permutation.
  destruct (serve_db validation_message generate_content random_rowid rqs created.1)
    as [k Hk].
  subst later. rewrite Hk, Hcreated. simpl. set_solver.
Qed.

End schema_properties.

(** * The prompt does not delimit its two fields *)

Lemma append_assoc (a b c : string) : (a +:+ b) +:+ c = a +:+ b +:+ c.
Proof.
  induction a as [|x a IH]; [done|].
  change (String x ((a +:+ b) +:+ c) = String x (a +:+ b +:+ c)).
  by rewrite IH.
Qed.

(** X16. The prompt only concatenates: a request whose data context
    contains the question label, and a request whose message contains it,
    can build the same content sequence, so the receiver cannot tell
    where the data context ends. *)
Theorem X16_prompt_fields_not_delimited (h : list (gmap string json))
    (mdl a b c : string) :
  build_contents
    {| message := c; history := h;
       data_context := a +:+ QUESTION_MARK +:+ b; model := mdl |}
  = build_contents
      {| message := b +:+ QUESTION_MARK +:+ c; history := h;
         data_context := a; model := mdl |}.
Proof.
  unfold build_contents, prompt. simpl.
  destruct (history_loop [] h) as [e|units]; simpl; [done|].
  do 6 f_equal.
  unfold QUESTION_MARK. by rewrite !append_assoc.
Qed.

(** * The further properties at the sample inputs *)

Lemma X8_run_without_client_witness :
  world (serve sample.message_of sample.answers sample.pick
           (startup None None sample.w0) sample.run).1
  = sample.w0.
Proof.
  apply (X8_run_without_client sample.message_of sample.answers sample.pick sample.run
           (startup None None sample.w0)).
  reflexivity.
Defined.

Lemma X10_list_unchanged_without_create_witness :
  db (serve sample.message_of sample.answers sample.pick sample.app0 sample.quiet_run).1
  = db sample.app0.
Proof.
  apply (X10_list_unchanged_without_create sample.message_of sample.answers sample.pick
           sample.quiet_run sample.app0).
  repeat constructor.
Defined.

Lemma sample_pick_unused : draws_unused sample.pick.
Proof.
  intros ids Hin. unfold sample.pick in Hin.
  assert (1 + foldr Z.max 0 ids ∈ 0 :: ids) as Hin' by (by right).
  apply foldr_max_ge in Hin'. lia.
Defined.


Lemma X2_ids_from_empty_store_witness :
  (create_all sample.five (init_db None)
     [(10, sample.record); (20, sample.record)]).2
  = [Saved 1; Saved 2].
Proof.
  apply (X2_ids_from_empty_store sample.five
           [(10, sample.record); (20, sample.record)]).
  vm_compute. discriminate.
Defined.

(** C8 as first stated fails: on a table that holds the largest key,
    the store draws the next key at random among the unused ones, here
    5, which is not larger than the key already stored. *)
Lemma C8_counterexample :
  ¬ (∀ random_rowid table inputs,
       ∃ new,
         (create_all random_rowid table inputs).1 = table ++ new
         ∧ (create_all random_rowid table inputs).2 = Saved ∘ id <$> new
         ∧ length new = length inputs
         ∧ Forall (λ r', Forall (λ r, id r < id r') table) new
         ∧ StronglySorted (λ a b, id a < id b) new).
Proof.
  intros H.
  destruct (H sample.five sample.full_table [(1000, sample.record)])
    as (new & Hdb & _ & _ & Hgt & _).
  vm_compute in Hdb. injection Hdb as <-.
  apply Forall_inv, Forall_inv in Hgt.
  vm_compute in Hgt. discriminate Hgt.
Qed.

Lemma C8_ids_stable_and_increasing_witness :
  ∃ new,
    (create_all sample.five [] [(10, sample.record); (20, sample.record)]).1
    = new
    ∧ StronglySorted (λ a b, id a < id b) new.
Proof.
  destruct (C8_ids_stable_and_increasing sample.five []
              [(10, sample.record); (20, sample.record)])
    as (new & Hdb & _ & _ & Hmono).
  exists new. split; [exact Hdb|].
  apply Hmono. split; [vm_compute; discriminate|constructor].
Defined.

Lemma C9_records_never_change_witness :
  ∃ r,
    db (handle sample.message_of sample.answers sample.pick 1000 sample.app0
          (POST_records sample.body)).1 = db sample.app0 ++ [r]
    ∧ id r ∉ id <$> db sample.app0.
Proof.
  destruct (proj1 (C9_records_never_change sample.message_of sample.answers
                     sample.pick sample.app0) 1000 (POST_records sample.body))
    as [Hsame|(body & r & _ & Hdb & Hid)].
  - vm_compute in Hsame. discriminate.
  - exists r. split; [exact Hdb|]. apply Hid. exact sample_pick_unused.
Defined.

Lemma sample_other_key : "id" ∉ create_keys.
Proof.
  unfold create_keys. rewrite !not_elem_of_cons.
  repeat split; try done. apply not_elem_of_nil.
Defined.

Lemma X13_create_ignores_other_keys_witness :
  handle sample.message_of sample.answers sample.pick 1000 sample.app0
    (POST_records (JObj (<["id" := JInt 99]> {["filename" := JStr "a.csv"]})))
  = handle sample.message_of sample.answers sample.pick 1000 sample.app0
      (POST_records (JObj {["filename" := JStr "a.csv"]})).
Proof.
  apply (X13_create_ignores_other_keys sample.message_of sample.answers sample.pick 1000
           sample.app0 {["filename" := JStr "a.csv"]} "id" (JInt 99)).
  exact sample_other_key.
Defined.

Lemma X15_created_record_stays_listed_witness :
  ∃ r l,
    (handle sample.message_of sample.answers sample.pick 5000
       (serve sample.message_of sample.answers sample.pick
          (handle sample.message_of sample.answers sample.pick 1000 sample.app0
             (POST_records sample.body)).1 sample.run).1 GET_records).2
    = Records l
    ∧ r ∈ l ∧ models.filename r = "a.csv" ∧ timestamp r = 1000.
Proof.
  destruct (X15_created_record_stays_listed sample.message_of sample.answers sample.pick
              1000 5000 sample.app0 sample.body sample.record sample.run)
    as (r & l & _ & Hl & Hr & Hf & _ & _ & _ & Ht).
  - vm_compute. reflexivity.
  - exists r, l. repeat split; assumption.
Defined.
